(** * ojcal: DEF/EVD survival calculator (src/main.py)

    A shallow embedding of the calculator's core (damage resolvers, dice
    enumeration, survival probability, recommendation), of its two input
    parsers, of the detailed breakdown and of one round of the interactive
    loop, followed by the properties of the specification and by further
    properties of the code.

    Conventions of the embedding:
    - Python [int] is unbounded, so integers are [Z];
    - lists and the tuples yielded by [itertools.product] are [list Z];
    - an exception is a value of [Py.exn], a computation that may raise
      returns [Py.result];
    - the quotient [survival_count / total_outcomes] is kept as the exact
      rational ([Q]); Python rounds it to the nearest binary64 value.  The
      floats main.py compares are such quotients: they are finite, each
      denotes a rational, and [>] and [==] on finite floats are the order
      and the equality of the rationals they denote. *)

From Stdlib Require Import ZArith List Finite Bool Lia QArith Permutation.
From Stdlib Require Import Sorted.
From Stdlib Require Import String Ascii.
From Stdlib Require Decimal DecimalString DecimalZ DecimalPos.
Import ListNotations.
Open Scope Z_scope.

(** ** The Python built-ins main.py relies on *)

Module Py.

Inductive exn : Type :=
| ValueError
| IndexError
| ZeroDivisionError.

Inductive result (A : Type) : Type :=
| OK (a : A)
| Raise (e : exn).
Arguments OK {A} a.
Arguments Raise {A} e.

Definition bind {A B : Type} (m : result A) (k : A -> result B) : result B :=
  match m with
  | OK a => k a
  | Raise e => Raise e
  end.

(** [sum(xs)]: left-to-right accumulation from 0. *)
Definition sum (xs : list Z) : Z := fold_left Z.add xs 0.

(** [max(a, b)]. *)
Definition max (a b : Z) : Z := Z.max a b.

(** [range(lo, hi)], materialised: [lo, lo+1, ..., hi-1], empty when
    [hi <= lo]. *)
Definition range (lo hi : Z) : list Z :=
  map (fun i => lo + Z.of_nat i) (seq 0 (Z.to_nat (hi - lo))).

(** [itertools.product] applied to the pools, following the reference
    implementation of the Python documentation:
<<
    result = [[]]
    for pool in pools:
        result = [x+[y] for x in result for y in pool]
>> *)
Definition product_step (result : list (list Z)) (pool : list Z)
  : list (list Z) :=
  flat_map (fun x => map (fun y => x ++ [y]) pool) result.

Definition product (pools : list (list Z)) : list (list Z) :=
  fold_left product_step pools [[]].

(** [len(xs)]. *)
Definition len {A : Type} (xs : list A) : Z := Z.of_nat (List.length xs).

(** [a / b] on two ints: true division, [ZeroDivisionError] when [b = 0],
    the exact quotient otherwise. *)
Definition true_div (a b : Z) : result Q :=
  if b =? 0 then Raise ZeroDivisionError
  else OK (inject_Z a / inject_Z b)%Q.

(** [x > y] on two quotients. *)
Definition gt (x y : Q) : bool :=
  match (x ?= y)%Q with
  | Gt => true
  | _ => false
  end.

End Py.

Notation "x <- m ;; k" := (Py.bind m (fun x => k))
  (at level 61, m at next level, right associativity).

(** ** The core of main.py *)

(** [calculate_def_damage], lines 15-29. *)
Definition calculate_def_damage (attack_power def_value : Z)
  (dice_rolls : list Z) : Z :=
  let total_dice := Py.sum dice_rolls in
  let damage := attack_power - def_value - total_dice in
  Py.max 1 damage.

(** [calculate_evd_damage], lines 32-48. *)
Definition calculate_evd_damage (attack_power evd_value : Z)
  (dice_rolls : list Z) : Z :=
  let total_dice := Py.sum dice_rolls in
  if evd_value + total_dice >? attack_power then 0 else attack_power.

(** [generate_dice_combinations], lines 51-62. *)
Definition generate_dice_combinations (dice_config : list Z)
  : list (list Z) :=
  let dice_ranges := map (fun faces => Py.range 1 (faces + 1)) dice_config in
  Py.product dice_ranges.

(** The body of the [for] loop of [calculate_survival_probability],
    lines 86-94, as a function of the counter. *)
Definition survival_step (current_hp attack_power def_value evd_value : Z)
  (use_def : bool) (survival_count : Z) (dice_combo : list Z) : Z :=
  let dice_rolls := dice_combo in
  let damage :=
    if use_def
    then calculate_def_damage attack_power def_value dice_rolls
    else calculate_evd_damage attack_power evd_value dice_rolls in
  if current_hp >? damage then survival_count + 1 else survival_count.

(** [calculate_survival_probability], lines 65-96; every caller passes
    [dice_config], so its default value is not modelled. *)
Definition calculate_survival_probability
  (current_hp attack_power def_value evd_value : Z)
  (use_def : bool) (dice_config : list Z) : Py.result Q :=
  let survival_count := 0 in
  let dice_combinations := generate_dice_combinations dice_config in
  let total_outcomes := Py.len dice_combinations in
  let survival_count :=
    fold_left
      (survival_step current_hp attack_power def_value evd_value use_def)
      dice_combinations survival_count in
  Py.true_div survival_count total_outcomes.

(** The three-way comparison of [analyze_best_choice], lines 120-125. *)
Definition recommend (def_probability evd_probability : Q) : string :=
  if Py.gt def_probability evd_probability then "DEF"%string
  else if Py.gt evd_probability def_probability then "EVD"%string
  else "DEF/EVD (相同胜率)"%string.

(** [analyze_best_choice], lines 99-127. *)
Definition analyze_best_choice
  (current_hp attack_power def_value evd_value : Z)
  (dice_config : list Z) : Py.result (string * Q * Q) :=
  def_probability <-
    calculate_survival_probability
      current_hp attack_power def_value evd_value true dice_config ;;
  evd_probability <-
    calculate_survival_probability
      current_hp attack_power def_value evd_value false dice_config ;;
  let recommendation := recommend def_probability evd_probability in
  Py.OK (recommendation, def_probability, evd_probability).

(** ** The string built-ins of the two parsers

    Strings are byte strings; the whitespace and the digits recognised are
    the ASCII ones. *)

Module PyStr.
Import Py.
Local Open Scope char_scope.

(** [c.isspace()] on ASCII: tab, line feed, vertical tab, form feed,
    carriage return, the four separators 28-31 and the space. *)
Definition isspace (c : ascii) : bool :=
  let n := nat_of_ascii c in
  ((9 <=? n) && (n <=? 13) || (28 <=? n) && (n <=? 32))%nat.

Fixpoint lstrip (s : string) : string :=
  match s with
  | EmptyString => EmptyString
  | String c s' => if isspace c then lstrip s' else s
  end.

Fixpoint rstrip (s : string) : string :=
  match s with
  | EmptyString => EmptyString
  | String c s' =>
      match rstrip s' with
      | EmptyString => if isspace c then EmptyString else String c EmptyString
      | r => String c r
      end
  end.

(** [s.strip()]. *)
Definition strip (s : string) : string := rstrip (lstrip s).

(** [c in s] for a one-character [c]. *)
Fixpoint contains (c : ascii) (s : string) : bool :=
  match s with
  | EmptyString => false
  | String c' s' => Ascii.eqb c' c || contains c s'
  end.

(** [s.split(sep)] for a one-character separator: never empty, empty
    fields are kept. *)
Fixpoint split (sep : ascii) (s : string) : list string :=
  match s with
  | EmptyString => [EmptyString]
  | String c s' =>
      if Ascii.eqb c sep then EmptyString :: split sep s'
      else match split sep s' with
           | w :: ws => String c w :: ws
           | [] => [String c EmptyString]
           end
  end.

(** [s.split()]: the maximal runs of non-whitespace characters. *)
Fixpoint split_ws (s : string) : list string :=
  match s with
  | EmptyString => []
  | String c s' =>
      if isspace c then split_ws s'
      else match s' with
           | EmptyString => [String c EmptyString]
           | String c' _ =>
               if isspace c' then String c EmptyString :: split_ws s'
               else match split_ws s' with
                    | w :: ws => String c w :: ws
                    | [] => [String c EmptyString]
                    end
           end
  end.

Definition digit_val (c : ascii) : option Z :=
  let n := nat_of_ascii c in
  if ((48 <=? n) && (n <=? 57))%nat then Some (Z.of_nat n - 48) else None.

(** Decimal digits, single underscores allowed between two digits. *)
Fixpoint digits_acc (s : string) (acc : Z) (after_digit : bool)
  : option Z :=
  match s with
  | EmptyString => if after_digit then Some acc else None
  | String c s' =>
      match digit_val c with
      | Some d => digits_acc s' (10 * acc + d) true
      | None =>
          if Ascii.eqb c "_" && after_digit then digits_acc s' acc false
          else None
      end
  end.

(** [int(s)] on a string: surrounding whitespace, an optional sign, then
    decimal digits; [ValueError] on anything else. *)
Definition int (s : string) : result Z :=
  let body := strip s in
  let '(negative, digits) :=
    match body with
    | String "-" r => (true, r)
    | String "+" r => (false, r)
    | _ => (false, body)
    end in
  match digits_acc digits 0 false with
  | Some n => OK (if negative then - n else n)
  | None => Raise ValueError
  end.

(** [xs[i]] for [i >= 0]. *)
Definition getitem {A : Type} (xs : list A) (i : nat) : result A :=
  match nth_error xs i with
  | Some x => OK x
  | None => Raise IndexError
  end.

(** [[f(x) for x in xs]] where [f] may raise: the first exception wins. *)
Fixpoint comprehension {A B : Type} (f : A -> result B) (xs : list A)
  : result (list B) :=
  match xs with
  | [] => OK []
  | x :: xs' =>
      y <- f x ;;
      ys <- comprehension f xs' ;;
      OK (y :: ys)
  end.

(** [try: body / except ValueError: handler]. *)
Definition try_except_ValueError {A : Type} (body : result A)
  (handler : result A) : result A :=
  match body with
  | Raise ValueError => handler
  | r => r
  end.

(** [str(n)] on an int: the decimal digits, after a minus sign when [n] is
    negative. *)
Definition str (n : Z) : string :=
  DecimalString.NilZero.string_of_int (Z.to_int n).

(** [sep.join(xs)]. *)
Fixpoint join (sep : string) (xs : list string) : string :=
  match xs with
  | [] => EmptyString
  | x :: rest =>
      match rest with
      | [] => x
      | _ :: _ => (x ++ sep ++ join sep rest)%string
      end
  end.




End PyStr.

(** ** The parsers of main.py *)

(** The validation loop of [parse_dice_config], lines 178-180. *)
Fixpoint validate_faces (dice_config : list Z) : Py.result unit :=
  match dice_config with
  | [] => Py.OK tt
  | faces :: rest =>
      if faces <? 1 then Py.Raise Py.ValueError else validate_faces rest
  end.

(** [parse_dice_config], lines 162-184.  The message printed by the handler
    is not modelled. *)
Definition parse_dice_config (dice_str : string) : Py.result (list Z) :=
  match PyStr.strip dice_str with
  | EmptyString => Py.OK [6]
  | _ =>
      PyStr.try_except_ValueError
        (dice_config <-
           PyStr.comprehension (fun x => PyStr.int (PyStr.strip x))
             (PyStr.split "," dice_str) ;;
         _ <- validate_faces dice_config ;;
         Py.OK dice_config)
        (Py.OK [6])
  end.

(** [parse_quick_input], lines 187-218. *)
Definition parse_quick_input (args_str : string)
  : Py.result (Z * Z * Z * Z * list Z) :=
  let parts :=
    if PyStr.contains "," args_str
    then map PyStr.strip (PyStr.split "," args_str)
    else map PyStr.strip
           (filter (fun x => negb (String.eqb (PyStr.strip x) ""))
              (PyStr.split_ws args_str)) in
  if Py.len parts <? 4 then Py.Raise Py.ValueError
  else
    p0 <- PyStr.getitem parts 0 ;; current_hp <- PyStr.int p0 ;;
    p1 <- PyStr.getitem parts 1 ;; attack_power <- PyStr.int p1 ;;
    p2 <- PyStr.getitem parts 2 ;; def_value <- PyStr.int p2 ;;
    p3 <- PyStr.getitem parts 3 ;; evd_value <- PyStr.int p3 ;;
    dice_config <-
      (if Py.len parts >? 4
       then PyStr.comprehension PyStr.int (skipn 4 parts)
       else Py.OK [6]) ;;
    Py.OK (current_hp, attack_power, def_value, evd_value, dice_config).

(** ** The detailed breakdown

    What [show_detailed_analysis] prints is modelled as the list of the
    strings passed to [print], in order; when an exception is raised the
    lines printed before it are not kept. *)


(** The expression of lines 146 and 158:
    ["+".join(map(str, dice_rolls)) if len(dice_rolls) > 1
     else str(dice_rolls[0])]. *)
Definition dice_str (dice_rolls : list Z) : Py.result string :=
  if Py.len dice_rolls >? 1
  then Py.OK (PyStr.join "+" (map PyStr.str dice_rolls))
  else x <- PyStr.getitem dice_rolls 0 ;; Py.OK (PyStr.str x).

(** The values computed for one outcome by the first loop, lines 143-146:
    [(dice_str, damage, survive)]. *)
Definition def_row (current_hp attack_power def_value : Z)
  (dice_combo : list Z) : Py.result (string * Z * string) :=
  let dice_rolls := dice_combo in
  let damage := calculate_def_damage attack_power def_value dice_rolls in
  let survive :=
    if current_hp >? damage then "存活"%string else "死亡"%string in
  ds <- dice_str dice_rolls ;;
  Py.OK (ds, damage, survive).


(** The values computed for one outcome by the second loop, lines 151-158:
    [(dice_str, evd_total, damage, result)]. *)
Definition evd_row (current_hp attack_power evd_value : Z)
  (dice_combo : list Z) : Py.result (string * Z * Z * string) :=
  let dice_rolls := dice_combo in
  let damage := calculate_evd_damage attack_power evd_value dice_rolls in
  let result :=
    if damage =? 0 then "闪避成功"%string
    else ("伤害" ++ PyStr.str damage ++ " -> "
          ++ (if current_hp >? damage then "存活" else "死亡"))%string in
  let evd_total := evd_value + Py.sum dice_rolls in
  ds <- dice_str dice_rolls ;;
  Py.OK (ds, evd_total, damage, result).


Definition detail_def_rows (current_hp attack_power def_value : Z)
  (dice_config : list Z) : Py.result (list (string * Z * string)) :=
  PyStr.comprehension (def_row current_hp attack_power def_value)
    (generate_dice_combinations dice_config).

Definition detail_evd_rows (current_hp attack_power evd_value : Z)
  (dice_config : list Z) : Py.result (list (string * Z * Z * string)) :=
  PyStr.comprehension (evd_row current_hp attack_power evd_value)
    (generate_dice_combinations dice_config).


(** ** One round of the interactive loop of [main], lines 266-336

    Each argument named [_line] is the string returned by the corresponding
    call of [input]; a round reads them in order and only as far as it
    gets.  The formatting of the probabilities is not modelled: a round
    that prints a result is [Reported] with the values printed. *)








(** ** Vocabulary of the specification *)

(** The sum of a dice outcome, by recursion on the outcome. *)
Fixpoint dice_total (dice_outcome : list Z) : Z :=
  match dice_outcome with
  | [] => 0
  | r :: rest => r + dice_total rest
  end.

(** The Cartesian product of the pools, first pool slowest. *)
Fixpoint cartesian (pools : list (list Z)) : list (list Z) :=
  match pools with
  | [] => [[]]
  | pool :: rest => flat_map (fun x => map (cons x) (cartesian rest)) pool
  end.

(** The product of all face counts. *)
Definition face_product (dice_config : list Z) : Z :=
  fold_right Z.mul 1 dice_config.

(** [dice_outcome] has, at each position [i], a value within
    [[1, faces_i]], and as many positions as the configuration. *)
Definition outcome_of (dice_config dice_outcome : list Z) : Prop :=
  Forall2 (fun r faces => 1 <= r <= faces) dice_outcome dice_config.

(** A valid dice configuration: every face count is at least 1. *)
Definition valid_faces (dice_config : list Z) : Prop :=
  Forall (fun faces => 1 <= faces) dice_config.

(** The damage of one outcome under the selected resolver. *)
Definition resolved_damage (attack_power def_value evd_value : Z)
  (use_def : bool) (dice_outcome : list Z) : Z :=
  if use_def
  then calculate_def_damage attack_power def_value dice_outcome
  else calculate_evd_damage attack_power evd_value dice_outcome.

(** The number of outcomes whose damage is strictly below the hit points. *)
Definition survival_count (current_hp attack_power def_value evd_value : Z)
  (use_def : bool) (outcomes : list (list Z)) : Z :=
  Py.len
    (filter
       (fun o =>
          resolved_damage attack_power def_value evd_value use_def o
          <? current_hp)
       outcomes).

(** The totals of the outcomes of the Cartesian product of the pools, with
    multiplicity. *)
Fixpoint totals (pools : list (list Z)) : list Z :=
  match pools with
  | [] => [0]
  | pool :: rest => flat_map (fun v => map (Z.add v) (totals rest)) pool
  end.

(** The damage of an outcome as a function of its total alone. *)
Definition damage_of_total (attack_power def_value evd_value : Z)
  (use_def : bool) (total_dice : Z) : Z :=
  if use_def
  then Z.max 1 (attack_power - def_value - total_dice)
  else if evd_value + total_dice >? attack_power then 0 else attack_power.

(** The three recommendation symbols, as main.py spells them. *)
Definition prefer_def : string := "DEF".
Definition prefer_evd : string := "EVD".
Definition tie : string := "DEF/EVD (相同胜率)".

(** Lexicographic order on outcomes, first die most significant. *)
Fixpoint lex_ltb (o o' : list Z) : bool :=
  match o, o' with
  | r :: rest, r' :: rest' => (r <? r') || ((r =? r') && lex_ltb rest rest')
  | [], _ :: _ => true
  | _, _ => false
  end.

Definition lex_lt (o o' : list Z) : Prop := lex_ltb o o' = true.

(** The worst roll (every die shows 1) and the best roll (every die shows
    its highest face). *)
Definition worst_roll (dice_config : list Z) : list Z :=
  map (fun _ => 1) dice_config.

Definition best_roll (dice_config : list Z) : list Z := dice_config.

(** The value of a decimal numeral read after the digits worth [acc]. *)
Fixpoint uint_value (d : Decimal.uint) (acc : Z) : Z :=
  match d with
  | Decimal.Nil => acc
  | Decimal.D0 d' => uint_value d' (10 * acc)
  | Decimal.D1 d' => uint_value d' (10 * acc + 1)
  | Decimal.D2 d' => uint_value d' (10 * acc + 2)
  | Decimal.D3 d' => uint_value d' (10 * acc + 3)
  | Decimal.D4 d' => uint_value d' (10 * acc + 4)
  | Decimal.D5 d' => uint_value d' (10 * acc + 5)
  | Decimal.D6 d' => uint_value d' (10 * acc + 6)
  | Decimal.D7 d' => uint_value d' (10 * acc + 7)
  | Decimal.D8 d' => uint_value d' (10 * acc + 8)
  | Decimal.D9 d' => uint_value d' (10 * acc + 9)
  end.

(** The characters of the decimal rendering of an int. *)
Definition numeric_char (c : ascii) : bool :=
  let n := nat_of_ascii c in
  ((n =? 45) || (48 <=? n) && (n <=? 57))%nat.

Fixpoint all_chars (p : ascii -> bool) (s : string) : bool :=
  match s with
  | EmptyString => true
  | String c s' => p c && all_chars p s'
  end.

(** A line of the flat-reduction section reports survival. *)
Definition def_row_survives (row : string * Z * string) : bool :=
  let '(_, _, survive) := row in String.eqb survive "存活".

(** A line of the evasion section reports a successful evasion or
    survival. *)
Definition evd_row_survives (row : string * Z * Z * string) : bool :=
  let '(_, _, damage, result) := row in
  String.eqb result "闪避成功"
  || String.eqb result ("伤害" ++ PyStr.str damage ++ " -> 存活")%string.

(** ** Built-ins *)

Lemma fold_add_shift (xs : list Z) (acc : Z) :
  fold_left Z.add xs acc = acc + dice_total xs.
Proof.
  revert acc; induction xs as [|x xs IH]; intros acc; simpl.
  - lia.
  - rewrite IH; lia.
Qed.

Lemma sum_dice_total (xs : list Z) : Py.sum xs = dice_total xs.
Proof. unfold Py.sum; now rewrite fold_add_shift. Qed.

Lemma gt_iff (x y : Q) : Py.gt x y = true <-> (y < x)%Q.
Proof.
  unfold Py.gt; rewrite Qlt_alt, <- (Qcompare_antisym x y).
  destruct (x ?= y)%Q; simpl; split; intro H; congruence.
Qed.

Lemma gt_false_iff (x y : Q) : Py.gt x y = false <-> (x <= y)%Q.
Proof.
  rewrite <- Bool.not_true_iff_false, gt_iff.
  split; [apply Qnot_lt_le | apply Qle_not_lt].
Qed.

(** ** The damage resolvers *)

(** C1: for all integers, the flat-reduction resolver returns
    [max(1, attack - def - sum(dice))], and that damage is at least 1. *)
Theorem calculate_def_damage_spec (attack_power def_value : Z)
  (dice_rolls : list Z) :
  calculate_def_damage attack_power def_value dice_rolls
  = Z.max 1 (attack_power - def_value - dice_total dice_rolls)
  /\ 1 <= calculate_def_damage attack_power def_value dice_rolls.
Proof.
  unfold calculate_def_damage, Py.max; rewrite sum_dice_total.
  split; [reflexivity | apply Z.le_max_l].
Qed.

(** C2: the evasion resolver returns 0 when [evd + sum(dice)] is strictly
    greater than the attack and the attack otherwise, so its result is 0 or
    the attack, never a value in between; for a non-zero attack (the
    specification's attack strengths are positive) the result is 0 exactly
    when the evasion succeeds. *)
Theorem calculate_evd_damage_spec (attack_power evd_value : Z)
  (dice_rolls : list Z) :
  let damage := calculate_evd_damage attack_power evd_value dice_rolls in
  let evaded := evd_value + dice_total dice_rolls > attack_power in
  (evaded -> damage = 0)
  /\ (~ evaded -> damage = attack_power)
  /\ (damage = 0 \/ damage = attack_power)
  /\ (attack_power <> 0 -> (damage = 0 <-> evaded)).
Proof.
  cbv zeta; unfold calculate_evd_damage; rewrite sum_dice_total.
  destruct (Z.gtb_spec (evd_value + dice_total dice_rolls) attack_power)
    as [Hgt | Hle].
  - repeat split; intros; auto; lia.
  - repeat split; intros; auto; lia.
Qed.

Lemma calculate_evd_damage_spec_witness :
  let damage := calculate_evd_damage 5 1 [4] in
  (1 + dice_total [4] > 5 -> damage = 0)
  /\ (~ 1 + dice_total [4] > 5 -> damage = 5)
  /\ (damage = 0 \/ damage = 5)
  /\ (5 <> 0 -> (damage = 0 <-> 1 + dice_total [4] > 5)).
Proof. exact (calculate_evd_damage_spec 5 1 [4]). Defined.

(** ** The combination generator *)

Section FlatMap.
Context {A B C : Type}.

Lemma flat_map_flat_map (f : A -> list B) (g : B -> list C) (l : list A) :
  flat_map g (flat_map f l) = flat_map (fun a => flat_map g (f a)) l.
Proof.
  induction l as [|a l IH]; simpl; [reflexivity|].
  now rewrite flat_map_app, IH.
Qed.

Lemma flat_map_singleton (f : A -> B) (l : list A) :
  flat_map (fun a => [f a]) l = map f l.
Proof. induction l as [|a l IH]; simpl; congruence. Qed.

Lemma flat_map_map (f : A -> B) (g : B -> list C) (l : list A) :
  flat_map g (map f l) = flat_map (fun a => g (f a)) l.
Proof. induction l as [|a l IH]; simpl; congruence. Qed.

Lemma map_flat_map (f : A -> list B) (g : B -> C) (l : list A) :
  map g (flat_map f l) = flat_map (fun a => map g (f a)) l.
Proof.
  induction l as [|a l IH]; simpl; [reflexivity|].
  now rewrite map_app, IH.
Qed.
End FlatMap.

(** The loop of [itertools.product], started from any partial result,
    extends each partial outcome by each element of the Cartesian product
    of the remaining pools. *)
Lemma product_loop (pools : list (list Z)) (result : list (list Z)) :
  fold_left Py.product_step pools result
  = flat_map (fun x => map (app x) (cartesian pools)) result.
Proof.
  revert result; induction pools as [|pool rest IH]; intros result; simpl.
  - rewrite (flat_map_ext _ (fun x => [x])).
    + now rewrite flat_map_singleton, map_id.
    + intros x; now rewrite app_nil_r.
  - rewrite IH; unfold Py.product_step.
    rewrite flat_map_flat_map.
    apply flat_map_ext; intros x.
    rewrite flat_map_map, map_flat_map.
    apply flat_map_ext; intros y.
    rewrite map_map.
    apply map_ext; intros o.
    now rewrite <- app_assoc.
Qed.

Lemma product_cartesian (pools : list (list Z)) :
  Py.product pools = cartesian pools.
Proof.
  unfold Py.product; rewrite product_loop; simpl.
  now rewrite app_nil_r, map_id.
Qed.

Lemma length_range (lo hi : Z) :
  List.length (Py.range lo hi) = Z.to_nat (hi - lo).
Proof. unfold Py.range; now rewrite length_map, length_seq. Qed.

Lemma in_range (lo hi v : Z) : In v (Py.range lo hi) <-> lo <= v < hi.
Proof.
  unfold Py.range; rewrite in_map_iff; split.
  - intros (i & <- & Hi); apply in_seq in Hi; lia.
  - intros Hv; exists (Z.to_nat (v - lo)); split; [lia|].
    apply in_seq; lia.
Qed.

Lemma NoDup_range (lo hi : Z) : NoDup (Py.range lo hi).
Proof.
  unfold Py.range; apply Finite.Injective_map_NoDup.
  - intros i j Hij; lia.
  - apply seq_NoDup.
Qed.

Lemma length_cartesian (pools : list (list Z)) :
  List.length (cartesian pools)
  = fold_right Nat.mul 1%nat (map (@List.length Z) pools).
Proof.
  induction pools as [|pool rest IH]; simpl; [reflexivity|].
  rewrite (flat_map_constant_length (c := List.length (cartesian rest))).
  - now rewrite IH.
  - intros x _; apply length_map.
Qed.

Lemma in_cartesian (pools : list (list Z)) (o : list Z) :
  In o (cartesian pools) <-> Forall2 (fun v pool => In v pool) o pools.
Proof.
  revert o; induction pools as [|pool rest IH]; intros o; simpl.
  - split.
    + intros [<- | []]; constructor.
    + intros H; inversion H; now left.
  - rewrite in_flat_map; split.
    + intros (x & Hx & Ho); apply in_map_iff in Ho as (o' & <- & Ho').
      constructor; [assumption | now apply IH].
    + intros H; inversion H as [|v p o' ps Hv Ho']; subst.
      exists v; split; [assumption|].
      apply in_map; now apply IH.
Qed.

Lemma NoDup_cartesian (pools : list (list Z)) :
  Forall (@NoDup Z) pools -> NoDup (cartesian pools).
Proof.
  induction 1 as [|pool rest Hpool _ IH]; simpl.
  - constructor; [intros [] | constructor].
  - induction Hpool as [|x pool Hx _ IHpool]; simpl; [constructor|].
    apply NoDup_app; [| exact IHpool |].
    + apply Finite.Injective_map_NoDup; [|exact IH].
      intros o o' Heq; now injection Heq.
    + intros o Ho Ho'.
      apply in_map_iff in Ho as (o1 & <- & _).
      apply in_flat_map in Ho' as (y & Hy & Ho').
      apply in_map_iff in Ho' as (o2 & Heq & _).
      injection Heq as -> _; contradiction.
Qed.

Lemma generate_cartesian (dice_config : list Z) :
  generate_dice_combinations dice_config
  = cartesian (map (fun faces => Py.range 1 (faces + 1)) dice_config).
Proof. apply product_cartesian. Qed.

Lemma len_generate (dice_config : list Z) :
  Py.len (generate_dice_combinations dice_config)
  = face_product (map (Z.max 0) dice_config).
Proof.
  rewrite generate_cartesian; unfold Py.len; rewrite length_cartesian.
  induction dice_config as [|faces rest IH]; simpl; [reflexivity|].
  rewrite Nat2Z.inj_mul, length_range; unfold face_product in IH.
  rewrite IH; f_equal; lia.
Qed.

Lemma in_generate (dice_config o : list Z) :
  In o (generate_dice_combinations dice_config) <-> outcome_of dice_config o.
Proof.
  rewrite generate_cartesian, in_cartesian; unfold outcome_of.
  revert o; induction dice_config as [|faces rest IH]; intros o; simpl.
  - split; intros H; inversion H; constructor.
  - split; intros H; inversion H as [|v p o' ps Hv Ho']; subst;
      (constructor; [| now apply IH]).
    + apply in_range in Hv; lia.
    + apply in_range; lia.
Qed.

Lemma NoDup_generate (dice_config : list Z) :
  NoDup (generate_dice_combinations dice_config).
Proof.
  rewrite generate_cartesian; apply NoDup_cartesian.
  apply Forall_map, Forall_forall; intros faces _; apply NoDup_range.
Qed.

Lemma face_product_valid (dice_config : list Z) :
  valid_faces dice_config ->
  face_product (map (Z.max 0) dice_config) = face_product dice_config
  /\ 1 <= face_product dice_config.
Proof.
  unfold face_product; induction 1 as [|faces rest Hf _ [IHeq IHpos]]; simpl.
  - split; [reflexivity | lia].
  - rewrite IHeq; split; [f_equal; lia | nia].
Qed.

(** C4: for a configuration whose face counts are all at least 1, the
    generator returns the Cartesian product of the ranges [[1, faces_i]]: as
    many outcomes as the product of the face counts, each outcome with a
    value within [[1, faces_i]] at each position, every such combination
    present, and no outcome twice. *)
Theorem generate_dice_combinations_spec (dice_config : list Z) :
  valid_faces dice_config ->
  Py.len (generate_dice_combinations dice_config) = face_product dice_config
  /\ (forall o, In o (generate_dice_combinations dice_config) ->
                outcome_of dice_config o)
  /\ (forall o, outcome_of dice_config o ->
                In o (generate_dice_combinations dice_config))
  /\ NoDup (generate_dice_combinations dice_config).
Proof.
  intros Hvalid; repeat split.
  - rewrite len_generate; now apply face_product_valid.
  - intros o; apply in_generate.
  - intros o; apply in_generate.
  - apply NoDup_generate.
Qed.

Lemma generate_dice_combinations_spec_witness :
  valid_faces [2; 3]
  /\ Py.len (generate_dice_combinations [2; 3]) = face_product [2; 3]
  /\ (forall o, In o (generate_dice_combinations [2; 3]) ->
                outcome_of [2; 3] o)
  /\ (forall o, outcome_of [2; 3] o ->
                In o (generate_dice_combinations [2; 3]))
  /\ NoDup (generate_dice_combinations [2; 3]).
Proof.
  assert (Hvalid : valid_faces [2; 3]) by (repeat constructor; lia).
  split; [exact Hvalid |].
  exact (generate_dice_combinations_spec [2; 3] Hvalid).
Defined.

(** ** The probability aggregator *)

(** The counting loop adds to the counter the number of surviving outcomes. *)
Lemma survival_loop (current_hp attack_power def_value evd_value : Z)
  (use_def : bool) (outcomes : list (list Z)) (count : Z) :
  fold_left
    (survival_step current_hp attack_power def_value evd_value use_def)
    outcomes count
  = count
    + survival_count current_hp attack_power def_value evd_value use_def
        outcomes.
Proof.
  unfold survival_count, Py.len.
  revert count; induction outcomes as [|o rest IH]; intros count; simpl.
  - lia.
  - rewrite IH; unfold survival_step, resolved_damage.
    rewrite Z.gtb_ltb.
    destruct (_ <? current_hp); simpl List.length; lia.
Qed.

Lemma calculate_survival_probability_unfold
  (current_hp attack_power def_value evd_value : Z)
  (use_def : bool) (dice_config : list Z) :
  calculate_survival_probability
    current_hp attack_power def_value evd_value use_def dice_config
  = Py.true_div
      (survival_count current_hp attack_power def_value evd_value use_def
         (generate_dice_combinations dice_config))
      (Py.len (generate_dice_combinations dice_config)).
Proof.
  unfold calculate_survival_probability; cbv zeta.
  now rewrite survival_loop.
Qed.

Lemma len_generate_valid (dice_config : list Z) :
  valid_faces dice_config ->
  1 <= Py.len (generate_dice_combinations dice_config).
Proof.
  intros Hvalid; rewrite len_generate.
  destruct (face_product_valid dice_config Hvalid) as [-> Hpos]; exact Hpos.
Qed.

Lemma generate_invalid (dice_config : list Z) :
  Exists (fun faces => faces < 1) dice_config ->
  generate_dice_combinations dice_config = [].
Proof.
  intros Hbad.
  destruct (generate_dice_combinations dice_config) as [|o rest] eqn:Hgen;
    [reflexivity | exfalso].
  assert (Ho : outcome_of dice_config o)
    by (apply in_generate; rewrite Hgen; now left).
  clear Hgen; unfold outcome_of in Ho.
  induction Ho as [|r faces o' cfg' Hr _ IH].
  - inversion Hbad.
  - inversion Hbad; subst; [lia | auto].
Qed.

Lemma calculate_survival_probability_valid
  (current_hp attack_power def_value evd_value : Z)
  (use_def : bool) (dice_config : list Z) :
  valid_faces dice_config ->
  calculate_survival_probability
    current_hp attack_power def_value evd_value use_def dice_config
  = Py.OK
      (Qdiv
         (inject_Z
            (survival_count current_hp attack_power def_value evd_value
               use_def (generate_dice_combinations dice_config)))
         (inject_Z (Py.len (generate_dice_combinations dice_config)))).
Proof.
  intros Hvalid.
  rewrite calculate_survival_probability_unfold; unfold Py.true_div.
  pose proof (len_generate_valid dice_config Hvalid) as Hpos.
  destruct (Z.eqb_spec (Py.len (generate_dice_combinations dice_config)) 0)
    as [H0 | _]; [lia | reflexivity].
Qed.

(** C3: for a non-empty configuration with all face counts at least 1, the
    aggregator returns [survival_count / total_outcome_count], where the
    survival count is the number of generated outcomes whose damage under
    the selected resolver is strictly less than the hit points (damage
    equal to the hit points is a death) and the total is the number of
    generated outcomes. *)
Theorem calculate_survival_probability_spec
  (current_hp attack_power def_value evd_value : Z)
  (use_def : bool) (dice_config : list Z) :
  dice_config <> [] ->
  valid_faces dice_config ->
  let outcomes := generate_dice_combinations dice_config in
  let survivors :=
    filter
      (fun o =>
         resolved_damage attack_power def_value evd_value use_def o
         <? current_hp)
      outcomes in
  calculate_survival_probability
    current_hp attack_power def_value evd_value use_def dice_config
  = Py.OK (Qdiv (inject_Z (Py.len survivors)) (inject_Z (Py.len outcomes))).
Proof.
  intros _ Hvalid; cbv zeta.
  now rewrite calculate_survival_probability_valid.
Qed.

Lemma calculate_survival_probability_spec_witness :
  [6; 6] <> [] /\ valid_faces [6; 6]
  /\ calculate_survival_probability 10 8 0 0 true [6; 6]
     = Py.OK
         (Qdiv
            (inject_Z
               (Py.len
                  (filter
                     (fun o => resolved_damage 8 0 0 true o <? 10)
                     (generate_dice_combinations [6; 6]))))
            (inject_Z (Py.len (generate_dice_combinations [6; 6])))).
Proof.
  assert (Hne : [6; 6] <> []) by discriminate.
  assert (Hvalid : valid_faces [6; 6]) by (repeat constructor; lia).
  split; [exact Hne | split; [exact Hvalid |]].
  exact (calculate_survival_probability_spec 10 8 0 0 true [6; 6] Hne Hvalid).
Defined.

(** C8: under the validation precondition every core function returns: the
    generator and the two resolvers are total functions, the generator
    yields at least one outcome, and the aggregator divides by that count
    and returns a probability.  Conversely a face count below 1 empties the
    outcome space and the aggregator raises [ZeroDivisionError]. *)
Theorem core_total_on_valid_input
  (current_hp attack_power def_value evd_value : Z)
  (use_def : bool) (dice_config : list Z) :
  (dice_config <> [] -> valid_faces dice_config ->
   0 < current_hp -> 0 < attack_power ->
   1 <= Py.len (generate_dice_combinations dice_config)
   /\ (exists p,
         calculate_survival_probability
           current_hp attack_power def_value evd_value use_def dice_config
         = Py.OK p)
   /\ (exists r,
         analyze_best_choice
           current_hp attack_power def_value evd_value dice_config
         = Py.OK r))
  /\ (Exists (fun faces => faces < 1) dice_config ->
      generate_dice_combinations dice_config = []
      /\ calculate_survival_probability
           current_hp attack_power def_value evd_value use_def dice_config
         = Py.Raise Py.ZeroDivisionError).
Proof.
  split.
  - intros Hne Hvalid _ _.
    split; [now apply len_generate_valid|].
    split.
    + eexists; now apply calculate_survival_probability_valid.
    + unfold analyze_best_choice.
      rewrite !calculate_survival_probability_valid by assumption.
      simpl; eexists; reflexivity.
  - intros Hbad; split; [now apply generate_invalid|].
    rewrite calculate_survival_probability_unfold.
    now rewrite (generate_invalid dice_config Hbad).
Qed.

Lemma core_total_on_valid_input_witness :
  (exists p, calculate_survival_probability 3 5 2 1 true [6; 4] = Py.OK p)
  /\ calculate_survival_probability 3 5 2 1 true [6; 0]
     = Py.Raise Py.ZeroDivisionError.
Proof.
  destruct (core_total_on_valid_input 3 5 2 1 true [6; 4]) as [Hok _].
  destruct (core_total_on_valid_input 3 5 2 1 true [6; 0]) as [_ Hbad].
  split.
  - apply Hok; [discriminate | repeat constructor; lia | lia | lia].
  - apply Hbad; right; left; lia.
Defined.

(** C10: with the flat-reduction resolver selected the aggregator's result
    does not depend on the evasion stat, and with the evasion resolver
    selected it does not depend on the flat-reduction stat. *)
Theorem unused_stat_irrelevant
  (current_hp attack_power def_value evd_value def_value' evd_value' : Z)
  (dice_config : list Z) :
  calculate_survival_probability
    current_hp attack_power def_value evd_value true dice_config
  = calculate_survival_probability
      current_hp attack_power def_value evd_value' true dice_config
  /\ calculate_survival_probability
       current_hp attack_power def_value evd_value false dice_config
     = calculate_survival_probability
         current_hp attack_power def_value' evd_value false dice_config.
Proof. split; reflexivity. Qed.

(** ** Order of the dice *)

Section PermutationFlatMap.
Context {A B C : Type}.

Lemma Permutation_flat_map_pointwise (f g : A -> list B) (l : list A) :
  (forall a, Permutation (f a) (g a)) ->
  Permutation (flat_map f l) (flat_map g l).
Proof.
  intros Hfg; induction l as [|a l IH]; simpl; [constructor|].
  now apply Permutation_app.
Qed.

Lemma Permutation_flat_map_app (f g : C -> list B) (l : list C) :
  Permutation (flat_map (fun c => f c ++ g c) l)
    (flat_map f l ++ flat_map g l).
Proof.
  induction l as [|c l IH]; simpl; [constructor|].
  rewrite IH, <- !app_assoc.
  apply Permutation_app_head, Permutation_app_swap_app.
Qed.

Lemma flat_map_nil (l : list C) :
  flat_map (fun _ : C => @nil B) l = [].
Proof. induction l as [|c l IH]; simpl; auto. Qed.

Lemma Permutation_flat_map_exchange (f : A -> C -> list B)
  (la : list A) (lc : list C) :
  Permutation
    (flat_map (fun a => flat_map (fun c => f a c) lc) la)
    (flat_map (fun c => flat_map (fun a => f a c) la) lc).
Proof.
  induction la as [|a la IH]; simpl.
  - now rewrite flat_map_nil.
  - rewrite Permutation_flat_map_app.
    now apply Permutation_app_head.
Qed.

Lemma Permutation_length_filter (p : A -> bool) (l l' : list A) :
  Permutation l l' ->
  List.length (filter p l) = List.length (filter p l').
Proof.
  induction 1 as [| x l l' _ IH | x y l | l l' l'' _ IH1 _ IH2]; simpl.
  - reflexivity.
  - destruct (p x); simpl; congruence.
  - destruct (p x), (p y); reflexivity.
  - congruence.
Qed.

Lemma length_filter_map (f : A -> B) (p : B -> bool) (l : list A) :
  List.length (filter (fun a => p (f a)) l)
  = List.length (filter p (map f l)).
Proof.
  induction l as [|a l IH]; simpl; [reflexivity|].
  destruct (p (f a)); simpl; congruence.
Qed.
End PermutationFlatMap.

Lemma totals_cartesian (pools : list (list Z)) :
  map dice_total (cartesian pools) = totals pools.
Proof.
  induction pools as [|pool rest IH]; simpl; [reflexivity|].
  rewrite map_flat_map; apply flat_map_ext; intros v.
  now rewrite <- IH, !map_map.
Qed.

Lemma totals_Permutation (pools pools' : list (list Z)) :
  Permutation pools pools' -> Permutation (totals pools) (totals pools').
Proof.
  induction 1 as [| x l l' _ IH | x y l | l l' l'' _ IH1 _ IH2]; simpl.
  - apply Permutation_refl.
  - apply Permutation_flat_map_pointwise; intros v.
    now apply Permutation_map.
  - set (f := fun v w => map (fun s => v + (w + s)) (totals l)).
    rewrite (flat_map_ext _ (fun v => flat_map (fun w => f v w) x)).
    + rewrite (flat_map_ext (fun v => map (Z.add v) _)
                 (fun w => flat_map (fun v => f v w) y)).
      * apply Permutation_flat_map_exchange.
      * intros w; rewrite map_flat_map; apply flat_map_ext; intros v.
        unfold f; rewrite map_map; apply map_ext; intros s; lia.
    + intros v; rewrite map_flat_map; apply flat_map_ext; intros w.
      unfold f; now rewrite map_map.
  - now transitivity (totals l').
Qed.

Lemma resolved_damage_total (attack_power def_value evd_value : Z)
  (use_def : bool) (o : list Z) :
  resolved_damage attack_power def_value evd_value use_def o
  = damage_of_total attack_power def_value evd_value use_def (dice_total o).
Proof.
  unfold resolved_damage, damage_of_total, calculate_def_damage,
    calculate_evd_damage, Py.max.
  now rewrite sum_dice_total.
Qed.

(** The survival count is a function of the multiset of outcome totals. *)
Lemma survival_count_totals (current_hp attack_power def_value evd_value : Z)
  (use_def : bool) (dice_config : list Z) :
  survival_count current_hp attack_power def_value evd_value use_def
    (generate_dice_combinations dice_config)
  = Py.len
      (filter
         (fun s =>
            damage_of_total attack_power def_value evd_value use_def s
            <? current_hp)
         (totals (map (fun faces => Py.range 1 (faces + 1)) dice_config))).
Proof.
  unfold survival_count, Py.len; f_equal.
  rewrite generate_cartesian, <- totals_cartesian.
  rewrite <- (length_filter_map dice_total).
  f_equal; apply filter_ext; intros o.
  now rewrite resolved_damage_total.
Qed.

(** C9: a permutation of the dice configuration leaves the survival
    probability unchanged, for either resolver and for fixed combat
    parameters (in particular for every non-empty configuration with all
    face counts at least 1). *)
Theorem calculate_survival_probability_Permutation
  (current_hp attack_power def_value evd_value : Z)
  (use_def : bool) (dice_config dice_config' : list Z) :
  Permutation dice_config dice_config' ->
  calculate_survival_probability
    current_hp attack_power def_value evd_value use_def dice_config
  = calculate_survival_probability
      current_hp attack_power def_value evd_value use_def dice_config'.
Proof.
  intros Hperm.
  rewrite !calculate_survival_probability_unfold, !survival_count_totals.
  assert (Hpools :
    Permutation (map (fun faces => Py.range 1 (faces + 1)) dice_config)
      (map (fun faces => Py.range 1 (faces + 1)) dice_config'))
    by now apply Permutation_map.
  f_equal.
  - unfold Py.len; f_equal.
    now apply Permutation_length_filter, totals_Permutation.
  - rewrite !generate_cartesian; unfold Py.len; f_equal.
    rewrite <- (length_map dice_total (cartesian _)), totals_cartesian.
    rewrite <- (length_map dice_total (cartesian _)), totals_cartesian.
    now apply Permutation_length, totals_Permutation.
Qed.

Lemma calculate_survival_probability_Permutation_witness :
  Permutation [4; 6; 2] [6; 2; 4]
  /\ calculate_survival_probability 3 7 2 1 true [4; 6; 2]
     = calculate_survival_probability 3 7 2 1 true [6; 2; 4].
Proof.
  assert (Hperm : Permutation [4; 6; 2] [6; 2; 4]).
  { apply perm_trans with (l' := [6; 4; 2]);
      [apply perm_swap | apply perm_skip, perm_swap]. }
  split; [exact Hperm |].
  exact (calculate_survival_probability_Permutation 3 7 2 1 true _ _ Hperm).
Defined.

(** ** The recommendation *)

Lemma analyze_best_choice_recommend
  (current_hp attack_power def_value evd_value : Z) (dice_config : list Z)
  (recommendation : string) (def_probability evd_probability : Q) :
  analyze_best_choice current_hp attack_power def_value evd_value dice_config
  = Py.OK (recommendation, def_probability, evd_probability) ->
  calculate_survival_probability
    current_hp attack_power def_value evd_value true dice_config
  = Py.OK def_probability
  /\ calculate_survival_probability
       current_hp attack_power def_value evd_value false dice_config
     = Py.OK evd_probability
  /\ recommendation = recommend def_probability evd_probability.
Proof.
  unfold analyze_best_choice.
  destruct (calculate_survival_probability _ _ _ _ true _) as [pd | e];
    simpl; [| discriminate].
  destruct (calculate_survival_probability _ _ _ _ false _) as [pe | e];
    simpl; [| discriminate].
  intros [= <- <- <-]; auto.
Qed.

(** C5: the recommendation is the prefer-flat-reduction symbol exactly when
    the flat-reduction probability is strictly greater, the prefer-evasion
    symbol exactly when the evasion probability is strictly greater, and the
    tie symbol exactly when the two probabilities are equal; the comparison
    is exact, without tolerance. *)
Theorem recommend_spec (def_probability evd_probability : Q) :
  (recommend def_probability evd_probability = prefer_def
   <-> (evd_probability < def_probability)%Q)
  /\ (recommend def_probability evd_probability = prefer_evd
      <-> (def_probability < evd_probability)%Q)
  /\ (recommend def_probability evd_probability = tie
      <-> (def_probability == evd_probability)%Q).
Proof.
  unfold recommend, prefer_def, prefer_evd, tie.
  destruct (Py.gt def_probability evd_probability) eqn:Hde.
  - apply gt_iff in Hde.
    repeat split; intros H; try discriminate; try assumption; exfalso.
    + exact (Qlt_irrefl _ (Qlt_trans _ _ _ H Hde)).
    + rewrite H in Hde; exact (Qlt_irrefl _ Hde).
  - apply gt_false_iff in Hde.
    destruct (Py.gt evd_probability def_probability) eqn:Hed.
    + apply gt_iff in Hed.
      repeat split; intros H; try discriminate; try assumption; exfalso.
      * exact (Qlt_not_le _ _ H Hde).
      * rewrite H in Hed; exact (Qlt_irrefl _ Hed).
    + apply gt_false_iff in Hed.
      repeat split; intros H; try discriminate; try reflexivity.
      * exfalso; exact (Qlt_not_le _ _ H Hde).
      * exfalso; exact (Qlt_not_le _ _ H Hed).
      * now apply Qle_antisym.
Qed.

(** C6: for hit points 3, attack 5, flat-reduction 2, evasion 1 and one
    6-sided die, the analysis returns the flat-reduction probability 1, the
    evasion probability 2/6 and the prefer-flat-reduction recommendation. *)
Theorem analyze_best_choice_example_1 :
  exists def_probability evd_probability : Q,
    analyze_best_choice 3 5 2 1 [6]
    = Py.OK (prefer_def, def_probability, evd_probability)
    /\ calculate_survival_probability 3 5 2 1 true [6]
       = Py.OK def_probability
    /\ calculate_survival_probability 3 5 2 1 false [6]
       = Py.OK evd_probability
    /\ (def_probability == 1)%Q
    /\ (evd_probability == 2 # 6)%Q.
Proof.
  exists (6 # 6)%Q, (2 # 6)%Q; repeat split.
Qed.

(** ** The parsers *)

Lemma int_raises (s : string) (e : Py.exn) :
  PyStr.int s = Py.Raise e -> e = Py.ValueError.
Proof.
  unfold PyStr.int.
  destruct (match PyStr.strip s with
            | String "-" r => (true, r)
            | String "+" r => (false, r)
            | _ => (false, PyStr.strip s)
            end) as [negative digits].
  destruct (PyStr.digits_acc digits 0 false); intros [=]; auto.
Qed.

Lemma comprehension_raises {A B : Type} (f : A -> Py.result B)
  (xs : list A) (e : Py.exn) :
  (forall x e', f x = Py.Raise e' -> e' = Py.ValueError) ->
  PyStr.comprehension f xs = Py.Raise e -> e = Py.ValueError.
Proof.
  intros Hf; induction xs as [|x xs IH]; simpl; [discriminate|].
  destruct (f x) as [y | e'] eqn:Hx; simpl.
  - destruct (PyStr.comprehension f xs) as [ys | e'']; simpl.
    + discriminate.
    + intros [= <-]; now apply IH.
  - intros [= <-]; now apply (Hf x).
Qed.

Lemma comprehension_length {A B : Type} (f : A -> Py.result B)
  (xs : list A) (ys : list B) :
  PyStr.comprehension f xs = Py.OK ys -> List.length ys = List.length xs.
Proof.
  revert ys; induction xs as [|x xs IH]; intros ys; simpl.
  - now intros [= <-].
  - destruct (f x) as [y | e]; simpl; [| discriminate].
    destruct (PyStr.comprehension f xs) as [ys' | e]; simpl; [| discriminate].
    intros [= <-]; simpl; f_equal; now apply IH.
Qed.

Lemma split_not_nil (sep : ascii) (s : string) : PyStr.split sep s <> [].
Proof.
  destruct s as [|c s]; simpl; [discriminate|].
  destruct (Ascii.eqb c sep); [discriminate|].
  destruct (PyStr.split sep s); discriminate.
Qed.

Lemma validate_faces_spec (dice_config : list Z) :
  (validate_faces dice_config = Py.OK tt /\ valid_faces dice_config)
  \/ validate_faces dice_config = Py.Raise Py.ValueError.
Proof.
  induction dice_config as [|faces rest IH]; simpl.
  - left; split; [reflexivity | constructor].
  - destruct (Z.ltb_spec faces 1) as [Hlt | Hge]; [now right|].
    destruct IH as [[-> Hvalid] | ->]; [left | now right].
    split; [reflexivity | now constructor].
Qed.

(** [parse_dice_config] never raises and never returns a face count below
    1: it returns the validated configuration or the default [[6]]. *)
Lemma parse_dice_config_valid (dice_str : string) :
  exists dice_config,
    parse_dice_config dice_str = Py.OK dice_config
    /\ dice_config <> []
    /\ valid_faces dice_config.
Proof.
  assert (Hdefault : [6] <> [] /\ valid_faces [6])
    by (split; [discriminate | repeat constructor; lia]).
  unfold parse_dice_config.
  destruct (PyStr.strip dice_str) as [|c body]; [now exists [6]|].
  destruct (PyStr.comprehension _ (PyStr.split "," dice_str))
    as [cfg | e] eqn:Hcfg; simpl.
  - destruct (validate_faces_spec cfg) as [[-> Hvalid] | ->]; simpl;
      [| now exists [6]].
    exists cfg; repeat split; [| assumption].
    apply comprehension_length in Hcfg.
    pose proof (split_not_nil "," dice_str) as Hne.
    destruct cfg; [| discriminate].
    destruct (PyStr.split "," dice_str); [congruence | discriminate].
  - apply comprehension_raises in Hcfg as ->; [now exists [6]|].
    intros x e'; apply int_raises.
Qed.

(** C7, the quick-input path: [parse_quick_input] copies a face count of 0
    into the dice configuration, and the core, called on it as main.py
    does, raises [ZeroDivisionError]; [parse_dice_config] on the same dice
    text substitutes the default. *)
Theorem parse_quick_input_keeps_invalid_faces :
  parse_quick_input "3,5,2,1,0" = Py.OK (3, 5, 2, 1, [0])
  /\ parse_quick_input "3 5 2 1 0" = Py.OK (3, 5, 2, 1, [0])
  /\ analyze_best_choice 3 5 2 1 [0] = Py.Raise Py.ZeroDivisionError
  /\ parse_dice_config "0" = Py.OK [6].
Proof. repeat split. Qed.

(** ** Further properties of the core *)



Lemma valid_not_invalid (dice_config : list Z) :
  valid_faces dice_config ->
  ~ Exists (fun faces => faces < 1) dice_config.
Proof.
  intros Hvalid Hbad; apply Exists_exists in Hbad as (faces & Hin & Hlt).
  unfold valid_faces in Hvalid; rewrite Forall_forall in Hvalid.
  specialize (Hvalid faces Hin); lia.
Qed.


Lemma survival_count_bounds (current_hp attack_power def_value evd_value : Z)
  (use_def : bool) (outcomes : list (list Z)) :
  0 <= survival_count current_hp attack_power def_value evd_value use_def
         outcomes
    <= Py.len outcomes.
Proof.
  unfold survival_count, Py.len; split; [lia |].
  apply Nat2Z.inj_le, filter_length_le.
Qed.

Lemma true_div_OK (c n : Z) (p : Q) :
  Py.true_div c n = Py.OK p -> n <> 0 /\ p = (inject_Z c / inject_Z n)%Q.
Proof.
  unfold Py.true_div; destruct (Z.eqb_spec n 0); [discriminate |].
  intros [= <-]; auto.
Qed.

Lemma inject_Z_inv_nonneg (n : Z) : 0 <= n -> (0 <= / inject_Z n)%Q.
Proof.
  intros Hn; apply Qinv_le_0_compat.
  change 0%Q with (inject_Z 0); now rewrite <- Zle_Qle.
Qed.

Lemma true_div_le (c c' n : Z) (p p' : Q) :
  c <= c' -> 0 <= n ->
  Py.true_div c n = Py.OK p -> Py.true_div c' n = Py.OK p' -> (p <= p')%Q.
Proof.
  intros Hc Hn Hp Hp'.
  apply true_div_OK in Hp as [_ ->]; apply true_div_OK in Hp' as [_ ->].
  unfold Qdiv; apply Qmult_le_compat_r.
  - now rewrite <- Zle_Qle.
  - now apply inject_Z_inv_nonneg.
Qed.

Lemma true_div_self (n : Z) (p : Q) :
  Py.true_div n n = Py.OK p -> (p == 1)%Q.
Proof.
  intros Hp; apply true_div_OK in Hp as [Hn ->].
  apply Qmult_inv_r; intros H0; apply Hn.
  unfold Qeq in H0; simpl in H0; lia.
Qed.

Section FilterLength.
Context {A : Type}.

Lemma length_filter_imp (p q : A -> bool) (l : list A) :
  (forall x, In x l -> p x = true -> q x = true) ->
  (List.length (filter p l) <= List.length (filter q l))%nat.
Proof.
  induction l as [|a l IH]; intros Hpq; simpl; [lia |].
  assert (IH' := IH (fun x Hx => Hpq x (or_intror Hx))).
  specialize (Hpq a (or_introl eq_refl)).
  destruct (p a), (q a); simpl;
    first [discriminate (Hpq eq_refl) | lia].
Qed.

Lemma length_filter_all (p : A -> bool) (l : list A) :
  List.length (filter p l) = List.length l
  <-> (forall x, In x l -> p x = true).
Proof.
  induction l as [|a l IH]; simpl; [tauto |].
  pose proof (filter_length_le p l) as Hle.
  destruct (p a) eqn:Ha; simpl; split.
  - intros [= Hlen] x [<- | Hx]; [assumption | now apply IH].
  - intros Hall; f_equal; apply IH; auto.
  - intros Hlen; lia.
  - intros Hall; specialize (Hall a (or_introl eq_refl)); congruence.
Qed.

Lemma length_filter_none (p : A -> bool) (l : list A) :
  List.length (filter p l) = 0%nat
  <-> (forall x, In x l -> p x = false).
Proof.
  induction l as [|a l IH]; simpl; [tauto |].
  destruct (p a) eqn:Ha; simpl; split.
  - discriminate.
  - intros Hnone; specialize (Hnone a (or_introl eq_refl)); congruence.
  - intros Hlen x [<- | Hx]; [assumption | now apply IH].
  - intros Hnone; apply IH; auto.
Qed.
End FilterLength.

Lemma survival_count_le
  (hp a d e hp' a' d' e' : Z) (u u' : bool) (outcomes : list (list Z)) :
  (forall o, In o outcomes ->
     resolved_damage a d e u o < hp -> resolved_damage a' d' e' u' o < hp') ->
  survival_count hp a d e u outcomes
  <= survival_count hp' a' d' e' u' outcomes.
Proof.
  intros Himp; unfold survival_count, Py.len.
  apply Nat2Z.inj_le, length_filter_imp; intros o Ho.
  rewrite !Z.ltb_lt; now apply Himp.
Qed.

Lemma survival_probability_le
  (hp a d e hp' a' d' e' : Z) (u u' : bool) (dice_config : list Z)
  (p p' : Q) :
  (forall o, In o (generate_dice_combinations dice_config) ->
     resolved_damage a d e u o < hp -> resolved_damage a' d' e' u' o < hp') ->
  calculate_survival_probability hp a d e u dice_config = Py.OK p ->
  calculate_survival_probability hp' a' d' e' u' dice_config = Py.OK p' ->
  (p <= p')%Q.
Proof.
  intros Himp; rewrite !calculate_survival_probability_unfold.
  apply true_div_le; [now apply survival_count_le | unfold Py.len; lia].
Qed.

Lemma damage_of_total_survives_more (a d e hp s s' : Z) (u : bool) :
  u = true \/ 0 < hp -> s <= s' ->
  damage_of_total a d e u s < hp -> damage_of_total a d e u s' < hp.
Proof.
  unfold damage_of_total; intros Hu Hs.
  destruct u.
  - lia.
  - destruct Hu as [Hu | Hhp]; [discriminate |].
    destruct (Z.gtb_spec (e + s) a), (Z.gtb_spec (e + s') a); lia.
Qed.

Lemma survival_probability_nonneg
  (current_hp attack_power def_value evd_value : Z)
  (use_def : bool) (dice_config : list Z) (p : Q) :
  calculate_survival_probability
    current_hp attack_power def_value evd_value use_def dice_config
  = Py.OK p ->
  (0 <= p)%Q.
Proof.
  rewrite calculate_survival_probability_unfold; intros Hp.
  destruct (true_div_OK _ _ _ Hp) as [_ ->].
  apply Qmult_le_0_compat.
  - change 0%Q with (inject_Z 0); rewrite <- Zle_Qle.
    apply survival_count_bounds.
  - apply inject_Z_inv_nonneg; unfold Py.len; lia.
Qed.

(** X1: the survival probability is a probability: whenever the aggregator
    returns, its result lies between 0 and 1. *)
Theorem calculate_survival_probability_bounds
  (current_hp attack_power def_value evd_value : Z)
  (use_def : bool) (dice_config : list Z) (p : Q) :
  calculate_survival_probability
    current_hp attack_power def_value evd_value use_def dice_config
  = Py.OK p ->
  (0 <= p <= 1)%Q.
Proof.
  intros Hp; split; [exact (survival_probability_nonneg _ _ _ _ _ _ _ Hp) |].
  rewrite calculate_survival_probability_unfold in Hp.
  pose proof (survival_count_bounds current_hp attack_power def_value
                evd_value use_def (generate_dice_combinations dice_config))
    as [_ Hhi].
  set (n := Py.len (generate_dice_combinations dice_config)) in *.
  assert (Hn : 0 <= n) by (unfold n, Py.len; lia).
  destruct (true_div_OK _ _ _ Hp) as [Hn0 _].
  assert (Hself : Py.true_div n n = Py.OK (inject_Z n / inject_Z n)%Q).
  { unfold Py.true_div; destruct (Z.eqb_spec n 0); [contradiction |].
    reflexivity. }
  rewrite <- (true_div_self n _ Hself).
  exact (true_div_le _ _ n _ _ Hhi Hn Hp Hself).
Qed.

Lemma calculate_survival_probability_bounds_witness :
  calculate_survival_probability 3 5 2 1 false [6] = Py.OK (2 # 6)%Q
  /\ (0 <= 2 # 6 <= 1)%Q.
Proof.
  assert (H : calculate_survival_probability 3 5 2 1 false [6]
              = Py.OK (2 # 6)%Q) by reflexivity.
  split; [exact H |].
  exact (calculate_survival_probability_bounds 3 5 2 1 false [6] _ H).
Defined.

(** X4: more hit points never lower the survival probability, under either
    resolver. *)
Theorem survival_probability_monotone_hp
  (current_hp current_hp' attack_power def_value evd_value : Z)
  (use_def : bool) (dice_config : list Z) (p p' : Q) :
  current_hp <= current_hp' ->
  calculate_survival_probability
    current_hp attack_power def_value evd_value use_def dice_config
  = Py.OK p ->
  calculate_survival_probability
    current_hp' attack_power def_value evd_value use_def dice_config
  = Py.OK p' ->
  (p <= p')%Q.
Proof.
  intros Hhp; apply survival_probability_le; intros o _; lia.
Qed.

Lemma survival_probability_monotone_hp_witness :
  3 <= 6
  /\ calculate_survival_probability 3 5 2 1 false [6] = Py.OK (2 # 6)%Q
  /\ calculate_survival_probability 6 5 2 1 false [6] = Py.OK (6 # 6)%Q
  /\ (2 # 6 <= 6 # 6)%Q.
Proof.
  assert (Hle : 3 <= 6) by lia.
  assert (H : calculate_survival_probability 3 5 2 1 false [6]
              = Py.OK (2 # 6)%Q) by reflexivity.
  assert (H' : calculate_survival_probability 6 5 2 1 false [6]
               = Py.OK (6 # 6)%Q) by reflexivity.
  exact (conj Hle (conj H (conj H'
    (survival_probability_monotone_hp 3 6 5 2 1 false [6] _ _ Hle H H')))).
Defined.

(** X5: for positive hit points, raising the flat-reduction stat or the evasion
    stat never lowers the survival probability of either resolver. *)
Theorem survival_probability_monotone_stats
  (current_hp attack_power def_value def_value' evd_value evd_value' : Z)
  (use_def : bool) (dice_config : list Z) (p p' : Q) :
  0 < current_hp ->
  def_value <= def_value' ->
  evd_value <= evd_value' ->
  calculate_survival_probability
    current_hp attack_power def_value evd_value use_def dice_config
  = Py.OK p ->
  calculate_survival_probability
    current_hp attack_power def_value' evd_value' use_def dice_config
  = Py.OK p' ->
  (p <= p')%Q.
Proof.
  intros Hhp Hd He; apply survival_probability_le; intros o _.
  rewrite !resolved_damage_total; unfold damage_of_total.
  destruct use_def; [lia |].
  destruct (Z.gtb_spec (evd_value + dice_total o) attack_power),
    (Z.gtb_spec (evd_value' + dice_total o) attack_power); lia.
Qed.

Lemma survival_probability_monotone_stats_witness :
  0 < 3 /\ 2 <= 2 /\ 1 <= 3
  /\ calculate_survival_probability 3 5 2 1 false [6] = Py.OK (2 # 6)%Q
  /\ calculate_survival_probability 3 5 2 3 false [6] = Py.OK (4 # 6)%Q
  /\ (2 # 6 <= 4 # 6)%Q.
Proof.
  assert (Hhp : 0 < 3) by lia.
  assert (Hd : 2 <= 2) by lia.
  assert (He : 1 <= 3) by lia.
  assert (H : calculate_survival_probability 3 5 2 1 false [6]
              = Py.OK (2 # 6)%Q) by reflexivity.
  assert (H' : calculate_survival_probability 3 5 2 3 false [6]
               = Py.OK (4 # 6)%Q) by reflexivity.
  exact (conj Hhp (conj Hd (conj He (conj H (conj H'
    (survival_probability_monotone_stats 3 5 2 2 1 3 false [6] _ _
       Hhp Hd He H H')))))).
Defined.

(** X6: for positive hit points, a stronger attack never raises the survival
    probability of either resolver. *)
Theorem survival_probability_antitone_attack
  (current_hp attack_power attack_power' def_value evd_value : Z)
  (use_def : bool) (dice_config : list Z) (p p' : Q) :
  0 < current_hp ->
  attack_power <= attack_power' ->
  calculate_survival_probability
    current_hp attack_power def_value evd_value use_def dice_config
  = Py.OK p ->
  calculate_survival_probability
    current_hp attack_power' def_value evd_value use_def dice_config
  = Py.OK p' ->
  (p' <= p)%Q.
Proof.
  intros Hhp Ha Hp Hp'; revert Hp' Hp.
  apply survival_probability_le; intros o _.
  rewrite !resolved_damage_total; unfold damage_of_total.
  destruct use_def; [lia |].
  destruct (Z.gtb_spec (evd_value + dice_total o) attack_power),
    (Z.gtb_spec (evd_value + dice_total o) attack_power'); lia.
Qed.

Lemma survival_probability_antitone_attack_witness :
  0 < 3 /\ 5 <= 6
  /\ calculate_survival_probability 3 5 2 1 false [6] = Py.OK (2 # 6)%Q
  /\ calculate_survival_probability 3 6 2 1 false [6] = Py.OK (1 # 6)%Q
  /\ (1 # 6 <= 2 # 6)%Q.
Proof.
  assert (Hhp : 0 < 3) by lia.
  assert (Ha : 5 <= 6) by lia.
  assert (H : calculate_survival_probability 3 5 2 1 false [6]
              = Py.OK (2 # 6)%Q) by reflexivity.
  assert (H' : calculate_survival_probability 3 6 2 1 false [6]
               = Py.OK (1 # 6)%Q) by reflexivity.
  exact (conj Hhp (conj Ha (conj H (conj H'
    (survival_probability_antitone_attack 3 5 6 2 1 false [6] _ _
       Hhp Ha H H'))))).
Defined.

Lemma true_div_eq_1 (c n : Z) (p : Q) :
  Py.true_div c n = Py.OK p -> ((p == 1)%Q <-> c = n).
Proof.
  intros Hp; split.
  - apply true_div_OK in Hp as [Hn ->]; intros H1.
    apply inject_Z_injective.
    rewrite <- (Qmult_div_r (inject_Z c) (inject_Z n)), H1.
    + apply Qmult_1_r.
    + intros H0; apply Hn; unfold Qeq in H0; simpl in H0; lia.
  - intros ->; exact (true_div_self n p Hp).
Qed.

Lemma true_div_eq_0 (c n : Z) (p : Q) :
  Py.true_div c n = Py.OK p -> ((p == 0)%Q <-> c = 0).
Proof.
  intros Hp; apply true_div_OK in Hp as [Hn ->]; split.
  - intros H0; apply inject_Z_injective.
    rewrite <- (Qmult_div_r (inject_Z c) (inject_Z n)), H0.
    + apply Qmult_0_r.
    + intros Hz; apply Hn; unfold Qeq in Hz; simpl in Hz; lia.
  - intros ->; unfold Qdiv; apply Qmult_0_l.
Qed.

Lemma survival_count_all (hp a d e : Z) (u : bool)
  (outcomes : list (list Z)) :
  survival_count hp a d e u outcomes = Py.len outcomes
  <-> (forall o, In o outcomes -> resolved_damage a d e u o < hp).
Proof.
  unfold survival_count, Py.len; rewrite Nat2Z.inj_iff, length_filter_all.
  split; intros H o Ho; specialize (H o Ho); now apply Z.ltb_lt.
Qed.

Lemma survival_count_none (hp a d e : Z) (u : bool)
  (outcomes : list (list Z)) :
  survival_count hp a d e u outcomes = 0
  <-> (forall o, In o outcomes -> hp <= resolved_damage a d e u o).
Proof.
  unfold survival_count, Py.len.
  change 0 with (Z.of_nat 0); rewrite Nat2Z.inj_iff, length_filter_none.
  split; intros H o Ho; specialize (H o Ho); now apply Z.ltb_ge.
Qed.

Lemma worst_roll_outcome (dice_config : list Z) :
  valid_faces dice_config -> outcome_of dice_config (worst_roll dice_config).
Proof.
  unfold outcome_of, worst_roll; induction 1; simpl; constructor;
    [lia | assumption].
Qed.

Lemma best_roll_outcome (dice_config : list Z) :
  valid_faces dice_config -> outcome_of dice_config (best_roll dice_config).
Proof.
  unfold outcome_of, best_roll; induction 1; simpl; constructor;
    [lia | assumption].
Qed.

Lemma outcome_total_bounds (dice_config o : list Z) :
  outcome_of dice_config o ->
  dice_total (worst_roll dice_config) <= dice_total o
  <= dice_total (best_roll dice_config).
Proof.
  unfold outcome_of, worst_roll, best_roll.
  induction 1; cbn [dice_total map]; lia.
Qed.

(** X7: certain survival and certain death are decided by the extreme rolls.
    On a valid configuration (and positive hit points when the evasion
    resolver is selected) the probability is 1 exactly when the roll of all
    ones survives, and 0 exactly when the roll of all highest faces dies. *)
Theorem survival_certain_iff_extreme_roll
  (current_hp attack_power def_value evd_value : Z)
  (use_def : bool) (dice_config : list Z) (p : Q) :
  valid_faces dice_config ->
  use_def = true \/ 0 < current_hp ->
  calculate_survival_probability
    current_hp attack_power def_value evd_value use_def dice_config
  = Py.OK p ->
  ((p == 1)%Q
   <-> resolved_damage attack_power def_value evd_value use_def
         (worst_roll dice_config) < current_hp)
  /\ ((p == 0)%Q
      <-> current_hp
          <= resolved_damage attack_power def_value evd_value use_def
               (best_roll dice_config)).
Proof.
  intros Hvalid Hu; rewrite calculate_survival_probability_unfold; intros Hp.
  rewrite (true_div_eq_1 _ _ _ Hp), (true_div_eq_0 _ _ _ Hp).
  rewrite survival_count_all, survival_count_none; split; split.
  - intros Hall; apply Hall, in_generate; now apply worst_roll_outcome.
  - intros Hworst o Ho; apply in_generate in Ho.
    rewrite resolved_damage_total in *.
    apply (damage_of_total_survives_more _ _ _ _ _ _ _ Hu) with (2 := Hworst).
    now apply (outcome_total_bounds dice_config).
  - intros Hnone; apply Hnone, in_generate; now apply best_roll_outcome.
  - intros Hbest o Ho; apply in_generate in Ho.
    rewrite resolved_damage_total in *.
    destruct (Z_lt_le_dec
                (damage_of_total attack_power def_value evd_value use_def
                   (dice_total o)) current_hp) as [Hlt | Hge];
      [| exact Hge].
    apply (damage_of_total_survives_more _ _ _ _ _
             (dice_total (best_roll dice_config)) _ Hu) in Hlt; [lia |].
    now apply (outcome_total_bounds dice_config).
Qed.

Lemma survival_certain_iff_extreme_roll_witness :
  valid_faces [6] /\ (true = true \/ 0 < 3)
  /\ calculate_survival_probability 3 5 2 1 true [6] = Py.OK (6 # 6)%Q
  /\ ((6 # 6 == 1)%Q <-> resolved_damage 5 2 1 true (worst_roll [6]) < 3)
  /\ ((6 # 6 == 0)%Q <-> 3 <= resolved_damage 5 2 1 true (best_roll [6])).
Proof.
  assert (Hvalid : valid_faces [6]) by (repeat constructor; lia).
  assert (Hu : true = true \/ 0 < 3) by (left; reflexivity).
  assert (H : calculate_survival_probability 3 5 2 1 true [6]
              = Py.OK (6 # 6)%Q) by reflexivity.
  exact (conj Hvalid (conj Hu (conj H
    (survival_certain_iff_extreme_roll 3 5 2 1 true [6] _ Hvalid Hu H)))).
Defined.

(** X8: with at most 1 hit point the flat-reduction choice never survives (the
    damage floor is 1), so the analysis never recommends it. *)
Theorem analyze_best_choice_last_hit_point
  (current_hp attack_power def_value evd_value : Z) (dice_config : list Z)
  (recommendation : string) (def_probability evd_probability : Q) :
  current_hp <= 1 ->
  analyze_best_choice current_hp attack_power def_value evd_value dice_config
  = Py.OK (recommendation, def_probability, evd_probability) ->
  (def_probability == 0)%Q /\ recommendation <> prefer_def.
Proof.
  intros Hhp Hres.
  apply analyze_best_choice_recommend in Hres as (Hd & He & ->).
  assert (Hzero : (def_probability == 0)%Q).
  { rewrite calculate_survival_probability_unfold in Hd.
    apply (true_div_eq_0 _ _ _ Hd), survival_count_none; intros o _.
    unfold resolved_damage, calculate_def_damage, Py.max; lia. }
  split; [exact Hzero |].
  apply survival_probability_nonneg in He.
  unfold recommend, prefer_def.
  destruct (Py.gt def_probability evd_probability) eqn:Hgt.
  - apply gt_iff in Hgt; rewrite Hzero in Hgt.
    exfalso; exact (Qlt_not_le _ _ Hgt He).
  - destruct (Py.gt evd_probability def_probability); discriminate.
Qed.

Lemma analyze_best_choice_last_hit_point_witness :
  1 <= 1
  /\ analyze_best_choice 1 5 2 1 [6] = Py.OK (prefer_evd, 0 # 6, 2 # 6)%Q
  /\ (0 # 6 == 0)%Q /\ prefer_evd <> prefer_def.
Proof.
  assert (Hhp : 1 <= 1) by lia.
  assert (H : analyze_best_choice 1 5 2 1 [6]
              = Py.OK (prefer_evd, 0 # 6, 2 # 6)%Q) by reflexivity.
  exact (conj Hhp (conj H
    (analyze_best_choice_last_hit_point 1 5 2 1 [6] _ _ _ Hhp H))).
Defined.

(** ** The order of the generated outcomes *)

Section StronglySortedFacts.
Context {A B : Type} (R : A -> A -> Prop) (R' : B -> B -> Prop).

Lemma StronglySorted_app (l1 l2 : list A) :
  StronglySorted R l1 -> StronglySorted R l2 ->
  (forall x y, In x l1 -> In y l2 -> R x y) ->
  StronglySorted R (l1 ++ l2).
Proof.
  induction 1 as [|a l1 Hl1 IH Ha]; intros Hl2 Hcross; simpl;
    [assumption |].
  constructor.
  - apply IH; [assumption | intros x y Hx; apply Hcross; now right].
  - apply Forall_app; split; [assumption |].
    apply Forall_forall; intros y Hy; apply Hcross; [now left | assumption].
Qed.

Lemma StronglySorted_map (f : A -> B) (l : list A) :
  (forall x y, R x y -> R' (f x) (f y)) ->
  StronglySorted R l -> StronglySorted R' (map f l).
Proof.
  intros Hf; induction 1 as [|a l Hl IH Ha]; simpl; constructor;
    [assumption |].
  apply Forall_map; revert Ha; apply Forall_impl; intros x; apply Hf.
Qed.
End StronglySortedFacts.

Lemma StronglySorted_seq (start len : nat) :
  StronglySorted lt (seq start len).
Proof.
  revert start; induction len as [|len IH]; intros start; simpl;
    constructor; [apply IH |].
  apply Forall_forall; intros x Hx; apply in_seq in Hx; lia.
Qed.

Lemma StronglySorted_range (lo hi : Z) :
  StronglySorted Z.lt (Py.range lo hi).
Proof.
  unfold Py.range; apply (StronglySorted_map lt Z.lt);
    [intros x y Hxy; lia | apply StronglySorted_seq].
Qed.

Lemma lex_lt_cons_same (x : Z) (o o' : list Z) :
  lex_lt o o' -> lex_lt (x :: o) (x :: o').
Proof.
  unfold lex_lt; simpl; intros ->.
  now rewrite Z.eqb_refl, Bool.orb_true_r.
Qed.

Lemma lex_lt_cons_lt (x y : Z) (o o' : list Z) :
  x < y -> lex_lt (x :: o) (y :: o').
Proof.
  unfold lex_lt; simpl; intros Hxy.
  apply Z.ltb_lt in Hxy; now rewrite Hxy.
Qed.

Lemma StronglySorted_cartesian (pools : list (list Z)) :
  Forall (StronglySorted Z.lt) pools ->
  StronglySorted lex_lt (cartesian pools).
Proof.
  induction 1 as [|pool rest Hpool _ IH]; simpl.
  - repeat constructor.
  - induction Hpool as [|x pool _ IHpool Hx]; simpl; [constructor |].
    apply StronglySorted_app; [| exact IHpool |].
    + apply (StronglySorted_map lex_lt lex_lt); [| exact IH].
      intros o o'; apply lex_lt_cons_same.
    + intros o o' Ho Ho'.
      apply in_map_iff in Ho as (o1 & <- & _).
      apply in_flat_map in Ho' as (y & Hy & Ho').
      apply in_map_iff in Ho' as (o2 & <- & _).
      apply lex_lt_cons_lt.
      rewrite Forall_forall in Hx; now apply Hx.
Qed.

(** X3: the outcomes are generated in strictly increasing lexicographic order,
    the first die being the most significant: every outcome is
    lexicographically smaller than all the outcomes generated after it. *)
Theorem generate_dice_combinations_sorted (dice_config : list Z) :
  StronglySorted lex_lt (generate_dice_combinations dice_config).
Proof.
  rewrite generate_cartesian; apply StronglySorted_cartesian.
  apply Forall_map, Forall_forall; intros faces _.
  apply StronglySorted_range.
Qed.

(** ** Decimal rendering and parsing of integers *)

Lemma of_uint_acc_value (d : Decimal.uint) (acc : positive) :
  Z.pos (Pos.of_uint_acc d acc) = uint_value d (Z.pos acc).
Proof.
  revert acc;
    induction d as [|d IH|d IH|d IH|d IH|d IH|d IH|d IH|d IH|d IH|d IH];
    intros acc; cbn [Pos.of_uint_acc uint_value];
    [reflexivity | rewrite IH; f_equal; lia ..].
Qed.

Lemma of_uint_value (d : Decimal.uint) :
  Z.of_uint d = uint_value d 0.
Proof.
  unfold Z.of_uint.
  induction d as [|d IH|d IH|d IH|d IH|d IH|d IH|d IH|d IH|d IH|d IH];
    cbn [Pos.of_uint uint_value Z.of_N];
    [reflexivity | exact IH | apply of_uint_acc_value ..].
Qed.

Lemma digits_acc_uint (d : Decimal.uint) (acc : Z) :
  PyStr.digits_acc (DecimalString.NilEmpty.string_of_uint d) acc true
  = Some (uint_value d acc).
Proof.
  revert acc;
    induction d as [|d IH|d IH|d IH|d IH|d IH|d IH|d IH|d IH|d IH|d IH];
    intros acc;
    cbn [DecimalString.NilEmpty.string_of_uint PyStr.digits_acc uint_value];
    [reflexivity | ..].
  all: match goal with
       | |- context [PyStr.digit_val ?c] =>
           let v := eval vm_compute in (PyStr.digit_val c) in
           change (PyStr.digit_val c) with v
       end; cbv beta iota; rewrite IH; do 2 f_equal; lia.
Qed.

Lemma all_chars_impl (p q : ascii -> bool) (s : string) :
  (forall c, p c = true -> q c = true) ->
  all_chars p s = true -> all_chars q s = true.
Proof.
  intros Hpq; induction s as [|c s IH]; simpl; [reflexivity |].
  rewrite !Bool.andb_true_iff; intros [Hc Hs]; auto.
Qed.

Lemma numeric_uint (d : Decimal.uint) :
  all_chars numeric_char (DecimalString.NilEmpty.string_of_uint d) = true.
Proof.
  induction d as [|d IH|d IH|d IH|d IH|d IH|d IH|d IH|d IH|d IH|d IH];
    cbn [DecimalString.NilEmpty.string_of_uint all_chars];
    [reflexivity | rewrite IH; reflexivity ..].
Qed.

Lemma numeric_uint_zero (d : Decimal.uint) :
  all_chars numeric_char (DecimalString.NilZero.string_of_uint d) = true.
Proof. destruct d; try apply numeric_uint; reflexivity. Qed.

Lemma numeric_str (n : Z) : all_chars numeric_char (PyStr.str n) = true.
Proof.
  unfold PyStr.str; destruct n as [|p|p];
    cbn [Z.to_int DecimalString.NilZero.string_of_int all_chars].
  - reflexivity.
  - apply numeric_uint_zero.
  - rewrite numeric_uint_zero; reflexivity.
Qed.

Lemma numeric_not_space (c : ascii) :
  numeric_char c = true -> PyStr.isspace c = false.
Proof.
  unfold numeric_char, PyStr.isspace; cbv zeta.
  rewrite Bool.orb_true_iff, Bool.andb_true_iff, Nat.eqb_eq, !Nat.leb_le.
  intros H.
  apply Bool.orb_false_iff; split; apply Bool.andb_false_iff;
    rewrite !Nat.leb_gt; lia.
Qed.

Lemma numeric_not_char (sep c : ascii) :
  numeric_char sep = false -> numeric_char c = true -> Ascii.eqb c sep = false.
Proof.
  intros Hsep Hc; destruct (Ascii.eqb_spec c sep) as [-> | _];
    [congruence | reflexivity].
Qed.

Lemma lstrip_id (s : string) :
  all_chars (fun c => negb (PyStr.isspace c)) s = true -> PyStr.lstrip s = s.
Proof.
  destruct s as [|c s]; simpl; [reflexivity |].
  rewrite Bool.andb_true_iff, Bool.negb_true_iff; now intros [-> _].
Qed.

Lemma rstrip_id (s : string) :
  all_chars (fun c => negb (PyStr.isspace c)) s = true -> PyStr.rstrip s = s.
Proof.
  induction s as [|c s IH]; simpl; [reflexivity |].
  rewrite Bool.andb_true_iff, Bool.negb_true_iff; intros [Hc Hs].
  rewrite (IH Hs), Hc; now destruct s.
Qed.

Lemma strip_id (s : string) :
  all_chars (fun c => negb (PyStr.isspace c)) s = true -> PyStr.strip s = s.
Proof.
  intros Hs; unfold PyStr.strip; now rewrite (lstrip_id s Hs), rstrip_id.
Qed.

Lemma str_no_space (n : Z) :
  all_chars (fun c => negb (PyStr.isspace c)) (PyStr.str n) = true.
Proof.
  apply (all_chars_impl numeric_char); [| apply numeric_str].
  intros c Hc; now rewrite (numeric_not_space c Hc).
Qed.

Lemma strip_str (n : Z) : PyStr.strip (PyStr.str n) = PyStr.str n.
Proof. apply strip_id, str_no_space. Qed.

Lemma digits_acc_nonnil (d : Decimal.uint) :
  d <> Decimal.Nil ->
  PyStr.digits_acc (DecimalString.NilZero.string_of_uint d) 0 false
  = Some (Z.of_uint d).
Proof.
  intros Hd; rewrite of_uint_value.
  destruct d; [contradiction | ..];
    cbn [DecimalString.NilZero.string_of_uint
           DecimalString.NilEmpty.string_of_uint PyStr.digits_acc uint_value];
    match goal with
    | |- context [PyStr.digit_val ?c] =>
        let v := eval vm_compute in (PyStr.digit_val c) in
        change (PyStr.digit_val c) with v
    end; cbv beta iota; apply digits_acc_uint.
Qed.

(** Parsing the decimal rendering of an integer gives the integer back. *)
Lemma int_str (n : Z) : PyStr.int (PyStr.str n) = Py.OK n.
Proof.
  unfold PyStr.int; rewrite strip_str; unfold PyStr.str.
  destruct n as [|p|p]; cbn [Z.to_int DecimalString.NilZero.string_of_int].
  - reflexivity.
  - pose proof (DecimalPos.Unsigned.to_uint_nonnil p) as Hnil.
    pose proof (digits_acc_nonnil _ Hnil) as Hdigits.
    unfold Z.of_uint in Hdigits;
      rewrite DecimalPos.Unsigned.of_to in Hdigits; simpl Z.of_N in Hdigits.
    destruct (Pos.to_uint p); [contradiction | ..];
      cbn [DecimalString.NilZero.string_of_uint
             DecimalString.NilEmpty.string_of_uint] in *;
      cbv beta iota; rewrite Hdigits; reflexivity.
  - pose proof (DecimalPos.Unsigned.to_uint_nonnil p) as Hnil.
    pose proof (digits_acc_nonnil _ Hnil) as Hdigits.
    unfold Z.of_uint in Hdigits;
      rewrite DecimalPos.Unsigned.of_to in Hdigits; simpl Z.of_N in Hdigits.
    cbv beta iota; rewrite Hdigits; reflexivity.
Qed.

(** ** Splitting a joined string *)



Lemma split_single (sep : ascii) (x : string) :
  all_chars (fun c => negb (Ascii.eqb c sep)) x = true ->
  PyStr.split sep x = [x].
Proof.
  induction x as [|c x IH]; simpl; [reflexivity |].
  rewrite Bool.andb_true_iff, Bool.negb_true_iff; intros [-> Hx].
  now rewrite (IH Hx).
Qed.

Lemma split_append (sep : ascii) (x s : string) :
  all_chars (fun c => negb (Ascii.eqb c sep)) x = true ->
  PyStr.split sep (x ++ String sep s) = x :: PyStr.split sep s.
Proof.
  induction x as [|c x IH]; simpl.
  - now rewrite Ascii.eqb_refl.
  - rewrite Bool.andb_true_iff, Bool.negb_true_iff; intros [-> Hx].
    now rewrite (IH Hx).
Qed.

Lemma split_join (sep : ascii) (xs : list string) :
  xs <> [] ->
  Forall (fun x => all_chars (fun c => negb (Ascii.eqb c sep)) x = true) xs ->
  PyStr.split sep (PyStr.join (String sep EmptyString) xs) = xs.
Proof.
  intros Hne Hxs; induction Hxs as [|x rest Hx Hrest IH]; [contradiction |].
  destruct rest as [|y rest]; [now apply split_single |].
  change (PyStr.join (String sep EmptyString) (x :: y :: rest))
    with (x ++ String sep
                 (PyStr.join (String sep EmptyString) (y :: rest)))%string.
  rewrite (split_append sep x _ Hx), IH; [reflexivity | discriminate].
Qed.







(** ** The parsers on well-formed input *)


Lemma str_no_char (sep : ascii) (n : Z) :
  numeric_char sep = false ->
  all_chars (fun c => negb (Ascii.eqb c sep)) (PyStr.str n) = true.
Proof.
  intros Hsep; apply (all_chars_impl numeric_char); [| apply numeric_str].
  intros c Hc; now rewrite (numeric_not_char sep c Hsep Hc).
Qed.



Lemma comprehension_int_strip_str (ns : list Z) :
  PyStr.comprehension (fun x => PyStr.int (PyStr.strip x))
    (map PyStr.str ns)
  = Py.OK ns.
Proof.
  induction ns as [|n ns IH]; simpl; [reflexivity |].
  now rewrite strip_str, int_str, IH.
Qed.







Lemma comprehension_Forall2 {A B : Type} (f : A -> Py.result B)
  (xs : list A) (ys : list B) :
  PyStr.comprehension f xs = Py.OK ys
  <-> Forall2 (fun x y => f x = Py.OK y) xs ys.
Proof.
  revert ys; induction xs as [|x xs IH]; intros ys; simpl.
  - split; [intros [= <-]; constructor | intros H; now inversion H].
  - destruct (f x) as [y | e] eqn:Hx; simpl.
    + destruct (PyStr.comprehension f xs) as [ys' | e] eqn:Hxs; simpl.
      * split.
        -- intros [= <-]; constructor; [assumption | now apply IH].
        -- intros H; inversion H as [|x0 y0 xs0 ys0 Hy Hys]; subst.
           apply IH in Hys; congruence.
      * split; [discriminate |].
        intros H; inversion H as [|x0 y0 xs0 ys0 Hy Hys]; subst.
        apply IH in Hys; discriminate.
    + split; [discriminate |].
      intros H; inversion H; congruence.
Qed.


Lemma parse_quick_input_cases (args_str : string) :
  match parse_quick_input args_str with
  | Py.OK (_, _, _, _, dice_config) => dice_config <> []
  | Py.Raise e => e = Py.ValueError
  end.
Proof.
  unfold parse_quick_input.
  set (parts := if PyStr.contains "," args_str then _ else _).
  destruct (Z.ltb_spec (Py.len parts) 4) as [_ | Hlen]; [reflexivity |].
  destruct parts as [|p0 [|p1 [|p2 [|p3 rest]]]];
    try (unfold Py.len in Hlen; cbn [List.length] in Hlen; lia).
  cbn [PyStr.getitem nth_error Py.bind skipn].
  destruct (PyStr.int p0) as [hp | e0] eqn:H0; cbn [Py.bind];
    [| now apply int_raises in H0].
  destruct (PyStr.int p1) as [atk | e1] eqn:H1; cbn [Py.bind];
    [| now apply int_raises in H1].
  destruct (PyStr.int p2) as [d | e2] eqn:H2; cbn [Py.bind];
    [| now apply int_raises in H2].
  destruct (PyStr.int p3) as [e | e3] eqn:H3; cbn [Py.bind];
    [| now apply int_raises in H3].
  destruct (Z.gtb_spec (Py.len (p0 :: p1 :: p2 :: p3 :: rest)) 4)
    as [Hgt | _]; [| cbn [Py.bind]; discriminate].
  destruct (PyStr.comprehension PyStr.int rest) as [faces | ex] eqn:Hrest;
    cbn [Py.bind].
  - apply comprehension_length in Hrest.
    unfold Py.len in Hgt; cbn [List.length] in Hgt.
    destruct faces; [simpl in Hrest; lia | discriminate].
  - apply comprehension_raises in Hrest; [assumption |].
    intros x e'; apply int_raises.
Qed.

(** X12: [parse_quick_input] fails only with [ValueError] (never with an index
    error), and a configuration it returns is never empty. *)
Theorem parse_quick_input_result (args_str : string) :
  match parse_quick_input args_str with
  | Py.OK (_, _, _, _, dice_config) => dice_config <> []
  | Py.Raise e => e = Py.ValueError
  end.
Proof. exact (parse_quick_input_cases args_str). Qed.

(** X9: [parse_dice_config] never raises and never lets an invalid face count
    through: whatever the text, it returns a non-empty configuration whose
    face counts are all at least 1. *)
Theorem parse_dice_config_result (dice_str : string) :
  exists dice_config,
    parse_dice_config dice_str = Py.OK dice_config
    /\ dice_config <> []
    /\ valid_faces dice_config.
Proof. exact (parse_dice_config_valid dice_str). Qed.

(** ** The detailed breakdown *)






Lemma append_inv_head (s a b : string) :
  (s ++ a)%string = (s ++ b)%string -> a = b.
Proof.
  induction s as [|c s IH]; simpl; [auto |].
  intros [= H]; auto.
Qed.

Lemma length_filter_Forall2 {A B : Type} (p : A -> bool) (q : B -> bool)
  (xs : list A) (ys : list B) :
  Forall2 (fun x y => p x = q y) xs ys ->
  List.length (filter p xs) = List.length (filter q ys).
Proof.
  induction 1 as [|x y xs ys Hxy _ IH]; simpl; [reflexivity |].
  rewrite <- Hxy; destruct (p x); simpl; congruence.
Qed.

Lemma def_row_verdict (current_hp attack_power def_value : Z)
  (o : list Z) (row : string * Z * string) :
  def_row current_hp attack_power def_value o = Py.OK row ->
  (calculate_def_damage attack_power def_value o <? current_hp)
  = def_row_survives row.
Proof.
  unfold def_row; cbv zeta.
  destruct (dice_str o) as [ds | e]; cbn [Py.bind]; [| discriminate].
  intros [= <-]; cbn [def_row_survives].
  rewrite Z.gtb_ltb.
  now destruct (calculate_def_damage attack_power def_value o <? current_hp).
Qed.

Lemma evd_row_verdict (current_hp attack_power evd_value : Z)
  (o : list Z) (row : string * Z * Z * string) :
  0 < current_hp ->
  evd_row current_hp attack_power evd_value o = Py.OK row ->
  (calculate_evd_damage attack_power evd_value o <? current_hp)
  = evd_row_survives row.
Proof.
  intros Hhp; unfold evd_row; cbv zeta.
  destruct (dice_str o) as [ds | e]; cbn [Py.bind]; [| discriminate].
  intros [= <-]; cbn [evd_row_survives].
  set (damage := calculate_evd_damage attack_power evd_value o).
  destruct (Z.eqb_spec damage 0) as [-> | Hnz].
  - rewrite String.eqb_refl; simpl; now apply Z.ltb_lt.
  - rewrite Z.gtb_ltb.
    destruct (damage <? current_hp).
    + rewrite (String.eqb_refl _), Bool.orb_true_r; reflexivity.
    + symmetry; apply Bool.orb_false_iff; split.
      * reflexivity.
      * apply String.eqb_neq; intros Heq.
        change ("伤害" ++ PyStr.str damage ++ " -> " ++ "死亡")%string
          with (("伤害" ++ PyStr.str damage) ++ " -> 死亡")%string in Heq
          || idtac.
        apply (append_inv_head "伤害") in Heq.
        apply append_inv_head in Heq; discriminate.
Qed.

(** X15: the breakdown agrees with the probabilities: for positive hit points,
    the fraction of lines of each section that report survival (for the
    evasion section, a successful evasion or survival) is the survival
    probability the aggregator returns for that resolver. *)
Theorem detail_rows_agree_with_probability
  (current_hp attack_power def_value evd_value : Z) (dice_config : list Z)
  (def_rows : list (string * Z * string))
  (evd_rows : list (string * Z * Z * string)) :
  0 < current_hp ->
  detail_def_rows current_hp attack_power def_value dice_config
  = Py.OK def_rows ->
  detail_evd_rows current_hp attack_power evd_value dice_config
  = Py.OK evd_rows ->
  calculate_survival_probability
    current_hp attack_power def_value evd_value true dice_config
  = Py.true_div (Py.len (filter def_row_survives def_rows))
      (Py.len def_rows)
  /\ calculate_survival_probability
       current_hp attack_power def_value evd_value false dice_config
     = Py.true_div (Py.len (filter evd_row_survives evd_rows))
         (Py.len evd_rows).
Proof.
  intros Hhp Hdef Hevd.
  apply comprehension_Forall2 in Hdef, Hevd.
  rewrite !calculate_survival_probability_unfold.
  unfold survival_count, Py.len, resolved_damage; split.
  - rewrite (Forall2_length Hdef); do 2 f_equal.
    apply length_filter_Forall2; revert Hdef; apply Forall2_impl.
    intros o row; apply def_row_verdict.
  - rewrite (Forall2_length Hevd); do 2 f_equal.
    apply length_filter_Forall2; revert Hevd; apply Forall2_impl.
    intros o row; now apply evd_row_verdict.
Qed.

Lemma detail_rows_agree_with_probability_witness :
  let def_rows := [("1", 2, "存活"); ("2", 1, "存活")]%string in
  let evd_rows :=
    [("1", 5, 5, "伤害5 -> 死亡"); ("2", 6, 0, "闪避成功")]%string in
  0 < 3
  /\ detail_def_rows 3 5 2 [2] = Py.OK def_rows
  /\ detail_evd_rows 3 5 4 [2] = Py.OK evd_rows
  /\ calculate_survival_probability 3 5 2 4 true [2]
     = Py.true_div (Py.len (filter def_row_survives def_rows))
         (Py.len def_rows)
  /\ calculate_survival_probability 3 5 2 4 false [2]
     = Py.true_div (Py.len (filter evd_row_survives evd_rows))
         (Py.len evd_rows).
Proof.
  intros def_rows evd_rows.
  assert (Hhp : 0 < 3) by lia.
  assert (Hdef : detail_def_rows 3 5 2 [2] = Py.OK def_rows) by reflexivity.
  assert (Hevd : detail_evd_rows 3 5 4 [2] = Py.OK evd_rows) by reflexivity.
  exact (conj Hhp (conj Hdef (conj Hevd
    (detail_rows_agree_with_probability 3 5 2 4 [2] def_rows evd_rows
       Hhp Hdef Hevd)))).
Defined.

(** ** The interactive rounds *)



Lemma try_except_OK {A : Type} (a : A) (handler : Py.result A) :
  PyStr.try_except_ValueError (Py.OK a) handler = Py.OK a.
Proof. reflexivity. Qed.



Lemma validate_faces_invalid (dice_config : list Z) :
  Exists (fun faces => faces < 1) dice_config ->
  validate_faces dice_config = Py.Raise Py.ValueError.
Proof.
  intros Hbad; destruct (validate_faces_spec dice_config) as [[_ Hvalid] | H];
    [now apply valid_not_invalid in Hvalid | exact H].
Qed.

(** X11: a well-formed dice text with an invalid face count falls back to the
    default: when some face count of a non-empty list is below 1, its
    comma-separated decimal rendering parses to the single 6-sided die. *)
Theorem parse_dice_config_invalid_default (dice_config : list Z) :
  dice_config <> [] ->
  Exists (fun faces => faces < 1) dice_config ->
  parse_dice_config (PyStr.join "," (map PyStr.str dice_config))
  = Py.OK [6].
Proof.
  intros Hne Hbad; unfold parse_dice_config.
  assert (Hfields : map PyStr.str dice_config <> [])
    by (destruct dice_config; [contradiction | discriminate]).
  rewrite split_join; [| exact Hfields |].
  - rewrite comprehension_int_strip_str; cbn [Py.bind].
    rewrite (validate_faces_invalid _ Hbad); cbn.
    now destruct (PyStr.strip _).
  - apply Forall_map, Forall_forall; intros n _.
    now apply str_no_char.
Qed.

Lemma parse_dice_config_invalid_default_witness :
  [6; 0; -2] <> [] /\ Exists (fun faces => faces < 1) [6; 0; -2]
  /\ parse_dice_config (PyStr.join "," (map PyStr.str [6; 0; -2]))
     = Py.OK [6].
Proof.
  assert (Hne : [6; 0; -2] <> []) by discriminate.
  assert (Hbad : Exists (fun faces => faces < 1) [6; 0; -2])
    by (right; left; lia).
  exact (conj Hne (conj Hbad
    (parse_dice_config_invalid_default [6; 0; -2] Hne Hbad))).
Defined.
